(** * Prometheus metrics recorder of KEDA (pkg/prommetrics/prommetrics.go)

    A shallow embedding of the recorder: the package-level metric vectors,
    the label-building helper and the recording functions, over a model of
    the part of the Prometheus client the recorder calls (metric vectors
    addressed by label values, get-or-create of a data point, Set, Inc and
    Dec). *)

From Stdlib Require Import ZArith NArith String Ascii List.
From Stdlib Require Import PrimFloat Uint63.
From stdpp Require Import base gmap strings list.

Local Open Scope string_scope.

(** ** Go values *)

(** [float64] is an IEEE 754 binary64 number. *)
Abbreviation float64 := PrimFloat.float.

(** A Go [error] value that is not nil.  The recorder only tests errors
    against nil, logs them or panics with them; the kinds below are those
    the label validation of the client can produce, and [errCaller] stands
    for an error handed in by the caller. *)
Inductive error : Type :=
  | errInconsistentCardinality
  | errInvalidUTF8
  | errMissingLabel (name : string)
  | errCaller (msg : string).

(** ** unicode/utf8.ValidString

    A Go string is a sequence of bytes, as [string] is here.  The byte
    ranges are those of the decoder's table: a lead byte fixes the number
    of continuation bytes and the range of the first of them, so overlong
    forms, surrogates and code points above U+10FFFF are refused. *)

Definition byte_in (lo hi : N) (c : ascii) : bool :=
  ((lo <=? N_of_ascii c) && (N_of_ascii c <=? hi))%N.

Definition cont (c : ascii) : bool := byte_in 128 191 c.

Fixpoint ValidString (s : string) : bool :=
  match s with
  | EmptyString => true
  | String c0 r =>
      let two lo hi :=
        match r with
        | String c1 r1 => byte_in lo hi c1 && ValidString r1
        | _ => false
        end in
      let three lo hi :=
        match r with
        | String c1 (String c2 r2) => byte_in lo hi c1 && cont c2 && ValidString r2
        | _ => false
        end in
      let four lo hi :=
        match r with
        | String c1 (String c2 (String c3 r3)) =>
            byte_in lo hi c1 && cont c2 && cont c3 && ValidString r3
        | _ => false
        end in
      if byte_in 0 127 c0 then ValidString r
      else if byte_in 194 223 c0 then two 128%N 191%N
      else if byte_in 224 224 c0 then three 160%N 191%N
      else if byte_in 225 236 c0 then three 128%N 191%N
      else if byte_in 237 237 c0 then three 128%N 159%N
      else if byte_in 238 239 c0 then three 128%N 191%N
      else if byte_in 240 240 c0 then four 144%N 191%N
      else if byte_in 241 243 c0 then four 128%N 191%N
      else if byte_in 244 244 c0 then four 128%N 143%N
      else false
  end.

(** ** strconv.Itoa *)

Definition digit (n : N) : ascii := ascii_of_N (48 + n mod 10).

Fixpoint digits (fuel : nat) (n : N) (acc : string) : string :=
  match fuel with
  | O => acc
  | S fuel' =>
      let acc' := String (digit n) acc in
      if (n / 10 =? 0)%N then acc' else digits fuel' (n / 10) acc'
  end.

(** The fuel bounds the number of decimal digits of [n]. *)
Definition FormatUint (n : N) : string := digits (S (N.to_nat (N.log2 n))) n "".

Definition Itoa (i : Z) : string :=
  if (i <? 0)%Z then String "-" (FormatUint (Z.to_N (- i))) else FormatUint (Z.to_N i).

(** ** The metric state and the effects of a call

    The client keeps, inside every metric vector, a map from label values
    to data points.  The state below is that map for all vectors of the
    process: a data point is addressed by the fully-qualified name of its
    vector and its label values, in the order of the vector's variable
    labels.  A gauge holds a [float64].  A counter is taken by its
    contract, "Inc increments the counter by 1": the recorder only ever
    calls [Inc] on its counters, so a counter holds the number of its
    increments, a natural number.  [logged] is what was handed to
    [log.Error], latest first. *)

Abbreviation point := (string * list string)%type.

Record State : Type := mkState {
  gauges : gmap point float64;
  counters : gmap point N;
  logged : list (error * string);
}.

Definition emptyState : State := mkState ∅ ∅ [].

(** A call either returns a value or panics; in both cases it leaves a
    state behind. *)
Inductive outcome (A : Type) : Type :=
  | Done (a : A)
  | Panic (e : error).
Arguments Done {A} a.
Arguments Panic {A} e.

Definition M (A : Type) : Type := State → outcome A * State.

#[export] Instance M_ret : MRet M := λ A a st, (Done a, st).

#[export] Instance M_bind : MBind M := λ A B f m st,
  match m st with
  | (Done a, st') => f a st'
  | (Panic e, st') => (Panic e, st')
  end.

Definition panic {A} (e : error) : M A := λ st, (Panic e, st).

(** ** The Prometheus client, as far as the recorder uses it *)

(** [prometheus.Labels] is [map[string]string]; [None] is the nil map,
    which reads as an empty one. *)
Definition Labels : Type := option (gmap string string).

Definition labelMap (labels : Labels) : gmap string string := default ∅ labels.

(** [prometheus.BuildFQName] joins the non-empty parts with underscores;
    an empty name gives the empty string. *)
Definition BuildFQName (namespace subsystem name : string) : string :=
  if decide (name = "") then ""
  else if decide (namespace ≠ "" ∧ subsystem ≠ "") then
    namespace ++ "_" ++ subsystem ++ "_" ++ name
  else if decide (namespace ≠ "") then namespace ++ "_" ++ name
  else if decide (subsystem ≠ "") then subsystem ++ "_" ++ name
  else name.

Record Opts : Type := mkOpts {
  Namespace : string;
  Subsystem : string;
  Name : string;
  Help : string;
}.

(** A metric vector: its fully-qualified name and its variable labels. *)
Record Vec : Type := mkVec {
  fqName : string;
  variableLabels : list string;
}.

Definition NewVec (o : Opts) (labelNames : list string) : Vec :=
  mkVec (BuildFQName (Namespace o) (Subsystem o) (Name o)) labelNames.

Inductive GaugeVec : Type := NewGaugeVec (o : Opts) (labelNames : list string).
Inductive CounterVec : Type := NewCounterVec (o : Opts) (labelNames : list string).

Definition gaugeVec (v : GaugeVec) : Vec := let 'NewGaugeVec o l := v in NewVec o l.
Definition counterVec (v : CounterVec) : Vec := let 'NewCounterVec o l := v in NewVec o l.

(** [validateValuesInLabels] and [validateLabelValues]: the number of
    values is that of the variable labels and every value is valid UTF-8. *)
Definition validateValuesInLabels (labels : Labels) (expected : nat) : option error :=
  if decide (size (labelMap labels) ≠ expected) then Some errInconsistentCardinality
  else if forallb ValidString (snd <$> map_to_list (labelMap labels)) then None
  else Some errInvalidUTF8.

Definition validateLabelValues (vals : list string) (expected : nat) : option error :=
  if decide (length vals ≠ expected) then Some errInconsistentCardinality
  else if forallb ValidString vals then None
  else Some errInvalidUTF8.

(** The values of the variable labels, in their order ([hashLabels] walks
    the variable labels and fails on the first one missing in the map). *)
Fixpoint valuesOf (names : list string) (m : gmap string string) : error + list string :=
  match names with
  | [] => inr []
  | name :: names' =>
      match m !! name with
      | None => inl (errMissingLabel name)
      | Some val =>
          match valuesOf names' m with
          | inl e => inl e
          | inr vals => inr (val :: vals)
          end
      end
  end.

(** The address of the data point of [v] for a label map or a list of
    label values, or the error of the validation. *)
Definition resolveLabels (v : Vec) (labels : Labels) : error + point :=
  match validateValuesInLabels labels (length (variableLabels v)) with
  | Some e => inl e
  | None =>
      match valuesOf (variableLabels v) (labelMap labels) with
      | inl e => inl e
      | inr vals => inr (fqName v, vals)
      end
  end.

Definition resolveValues (v : Vec) (vals : list string) : error + point :=
  match validateLabelValues vals (length (variableLabels v)) with
  | Some e => inl e
  | None => inr (fqName v, vals)
  end.

(** [getOrCreateMetricWithLabels]: a data point that does not exist yet is
    created with value zero. *)
Definition getOrCreateGauge (p : point) : M point :=
  λ st, (Done p,
         match gauges st !! p with
         | Some _ => st
         | None => mkState (<[p := 0%float]> (gauges st)) (counters st) (logged st)
         end).

Definition getOrCreateCounter (p : point) : M point :=
  λ st, (Done p,
         match counters st !! p with
         | Some _ => st
         | None => mkState (gauges st) (<[p := 0%N]> (counters st)) (logged st)
         end).

(** A [Gauge] or [Counter] handle is the address of its data point. *)
Module GaugeVec_.
Definition GetMetricWith (v : GaugeVec) (labels : Labels) : M (error + point) :=
  match resolveLabels (gaugeVec v) labels with
  | inl e => mret (inl e)
  | inr p => g ← getOrCreateGauge p; mret (inr g)
  end.

Definition GetMetricWithLabelValues (v : GaugeVec) (vals : list string) : M (error + point) :=
  match resolveValues (gaugeVec v) vals with
  | inl e => mret (inl e)
  | inr p => g ← getOrCreateGauge p; mret (inr g)
  end.

(** [With] and [WithLabelValues] panic where the getters return an error. *)
Definition With (v : GaugeVec) (labels : Labels) : M point :=
  r ← GetMetricWith v labels;
  match r with inl e => panic e | inr g => mret g end.

Definition WithLabelValues (v : GaugeVec) (vals : list string) : M point :=
  r ← GetMetricWithLabelValues v vals;
  match r with inl e => panic e | inr g => mret g end.
End GaugeVec_.

Module CounterVec_.
Definition GetMetricWith (v : CounterVec) (labels : Labels) : M (error + point) :=
  match resolveLabels (counterVec v) labels with
  | inl e => mret (inl e)
  | inr p => c ← getOrCreateCounter p; mret (inr c)
  end.

Definition With (v : CounterVec) (labels : Labels) : M point :=
  r ← GetMetricWith v labels;
  match r with inl e => panic e | inr c => mret c end.
End CounterVec_.

Module Gauge.
Definition value (g : point) (st : State) : float64 := default 0%float (gauges st !! g).

Definition Set_ (g : point) (val : float64) : M unit :=
  λ st, (Done tt, mkState (<[g := val]> (gauges st)) (counters st) (logged st)).

Definition Add (g : point) (val : float64) : M unit :=
  λ st, (Done tt, mkState (<[g := (value g st + val)%float]> (gauges st)) (counters st) (logged st)).

Definition Inc (g : point) : M unit := Add g 1%float.
Definition Dec (g : point) : M unit := Add g (-1)%float.
End Gauge.

Module Counter.
Definition value (c : point) (st : State) : N := default 0%N (counters st !! c).

Definition Inc (c : point) : M unit :=
  λ st, (Done tt, mkState (gauges st) (<[c := (value c st + 1)%N]> (counters st)) (logged st)).
End Counter.

(** [log.Error(err, msg)] *)
Definition log_Error (e : error) (msg : string) : M unit :=
  λ st, (Done tt, mkState (gauges st) (counters st) ((e, msg) :: logged st)).

(** ** pkg/prommetrics/prommetrics.go *)

Definition ClusterTriggerAuthenticationResource : string := "cluster_trigger_authentication".
Definition TriggerAuthenticationResource : string := "trigger_authentication".
Definition ScaledObjectResource : string := "scaled_object".
Definition ScaledJobResource : string := "scaled_job".

Definition DefaultPromMetricsNamespace : string := "keda".

Definition scaledObjectMetricLabels : list string :=
  ["namespace"; "metric"; "scaledObject"; "scaler"; "scalerIndex"].
Definition scaledJobmetricLabels : list string :=
  ["namespace"; "metric"; "scaledJob"; "scaler"; "scalerIndex"].

Definition buildInfo : GaugeVec :=
  NewGaugeVec
    (mkOpts DefaultPromMetricsNamespace "" "build_info"
       "A metric with a constant '1' value labeled by version, git_commit and goversion from which KEDA was built.")
    ["version"; "git_commit"; "goversion"; "goos"; "goarch"].

Definition scalerErrorsTotal : CounterVec :=
  NewCounterVec
    (mkOpts DefaultPromMetricsNamespace "scaler" "errors_total"
       "Total number of errors for all scalers")
    [].

Definition scaledObjectScalerMetricsValue : GaugeVec :=
  NewGaugeVec
    (mkOpts DefaultPromMetricsNamespace "scaler" "scaledobject_metrics_value"
       "Metric Value used for HPA")
    scaledObjectMetricLabels.

Definition scaledJobScalerMetricsValue : GaugeVec :=
  NewGaugeVec
    (mkOpts DefaultPromMetricsNamespace "scaler" "scaledjob_metrics_value"
       "Metric Value used for HPA")
    scaledJobmetricLabels.

Definition scaledObjectScalerMetricsLatency : GaugeVec :=
  NewGaugeVec
    (mkOpts DefaultPromMetricsNamespace "scaler" "scaledobject_metrics_latency"
       "Scaler Metrics Latency")
    scaledObjectMetricLabels.

Definition scaledJobScalerMetricsLatency : GaugeVec :=
  NewGaugeVec
    (mkOpts DefaultPromMetricsNamespace "scaler" "scaledjob_metrics_latency"
       "Scaler Metrics Latency")
    scaledJobmetricLabels.

Definition scaledObjectScalerActive : GaugeVec :=
  NewGaugeVec
    (mkOpts DefaultPromMetricsNamespace "scaler" "scaledobject_active"
       "Activity of a Scaler Metric")
    scaledObjectMetricLabels.

Definition scaledJobScalerActive : GaugeVec :=
  NewGaugeVec
    (mkOpts DefaultPromMetricsNamespace "scaler" "scaledjob_active"
       "Activity of a Scaler Metric")
    scaledJobmetricLabels.

Definition scaledObjectScalerErrors : CounterVec :=
  NewCounterVec
    (mkOpts DefaultPromMetricsNamespace "scaler" "scaledobject_errors"
       "Number of scaler errors")
    scaledObjectMetricLabels.

Definition scaledJobScalerErrors : CounterVec :=
  NewCounterVec
    (mkOpts DefaultPromMetricsNamespace "scaler" "scaledjob_errors"
       "Number of scaler errors")
    scaledJobmetricLabels.

Definition scaledObjectErrors : CounterVec :=
  NewCounterVec
    (mkOpts DefaultPromMetricsNamespace "scaled_object" "errors"
       "Number of scaled object errors")
    ["namespace"; "scaledObject"].

Definition scaledJobErrors : CounterVec :=
  NewCounterVec
    (mkOpts DefaultPromMetricsNamespace "scaled_job" "errors"
       "Number of scaled object errors")
    ["namespace"; "scaledJob"].

Definition triggerTotalsGaugeVec : GaugeVec :=
  NewGaugeVec (mkOpts DefaultPromMetricsNamespace "trigger" "totals" "") ["type"].

Definition crdTotalsGaugeVec : GaugeVec :=
  NewGaugeVec (mkOpts DefaultPromMetricsNamespace "resource" "totals" "") ["type"; "namespace"].

Definition internalLoopLatency : GaugeVec :=
  NewGaugeVec
    (mkOpts DefaultPromMetricsNamespace "internal_scale_loop" "latency"
       "Internal latency of ScaledObject/ScaledJob loop execution")
    ["namespace"; "type"; "resource"].

(** The message of the three [log.Error] calls. *)
Definition unableToWrite : string := "Unable to write to metrics to Prometheus Server: %v".

(** [getLabels]: the label map of a scaler's data point; nil for a resource
    type that is neither of the two.  Like every call it is a computation,
    one that returns without reading or writing the state. *)
Definition getLabels (namespace scaledResource scaler : string) (scalerIndex : Z)
    (metric resourceType : string) : M Labels :=
  if decide (resourceType = ScaledObjectResource) then
    mret (Some {[ "namespace" := namespace; "scaledObject" := scaledResource;
                  "scaler" := scaler; "scalerIndex" := Itoa scalerIndex;
                  "metric" := metric ]})
  else if decide (resourceType = ScaledJobResource) then
    mret (Some {[ "namespace" := namespace; "scaledJob" := scaledResource;
                  "scaler" := scaler; "scalerIndex" := Itoa scalerIndex;
                  "metric" := metric ]})
  else
    mret None.

(** [RecordScalerMetric] *)
Definition RecordScalerMetric (namespace scaledResource scaler : string) (scalerIndex : Z)
    (metric : string) (value : float64) (resourceType : string) : M unit :=
  labels ← getLabels namespace scaledResource scaler scalerIndex metric resourceType;
  if decide (resourceType = ScaledObjectResource) then
    g ← GaugeVec_.With scaledObjectScalerMetricsValue labels; Gauge.Set_ g value
  else if decide (resourceType = ScaledJobResource) then
    g ← GaugeVec_.With scaledJobScalerMetricsValue labels; Gauge.Set_ g value
  else mret tt.

(** [RecordScalerLatency] *)
Definition RecordScalerLatency (namespace scaledResource scaler : string) (scalerIndex : Z)
    (metric : string) (value : float64) (resourceType : string) : M unit :=
  labels ← getLabels namespace scaledResource scaler scalerIndex metric resourceType;
  if decide (resourceType = ScaledObjectResource) then
    g ← GaugeVec_.With scaledObjectScalerMetricsLatency labels; Gauge.Set_ g value
  else if decide (resourceType = ScaledJobResource) then
    g ← GaugeVec_.With scaledJobScalerMetricsLatency labels; Gauge.Set_ g value
  else mret tt.


(** [float64(activeVal)] for the two values [activeVal] takes. *)
Definition float64_of_int (i : Z) : float64 := PrimFloat.of_uint63 (Uint63.of_Z i).

(** [RecordScalerActive] *)
Definition RecordScalerActive (namespace scaledResource scaler : string) (scalerIndex : Z)
    (metric : string) (active : bool) (resourceType : string) : M unit :=
  let activeVal := if active then 1%Z else 0%Z in
  labels ← getLabels namespace scaledResource scaler scalerIndex metric resourceType;
  if decide (resourceType = ScaledObjectResource) then
    g ← GaugeVec_.With scaledObjectScalerActive labels; Gauge.Set_ g (float64_of_int activeVal)
  else if decide (resourceType = ScaledJobResource) then
    g ← GaugeVec_.With scaledJobScalerActive labels; Gauge.Set_ g (float64_of_int activeVal)
  else mret tt.

(** [RecordScaledObjectError]; [err] is [None] for a nil error. *)
Definition RecordScaledObjectError (namespace scaledResource : string) (err : option error)
    (resourceType : string) : M unit :=
  if decide (resourceType = ScaledObjectResource) then
    let labels : Labels := Some {[ "namespace" := namespace; "scaledObject" := scaledResource ]} in
    if decide (err ≠ None) then
      c ← CounterVec_.With scaledObjectErrors labels; Counter.Inc c
    else
      r ← CounterVec_.GetMetricWith scaledObjectErrors labels;
      match r with
      | inl errScaledObject => log_Error errScaledObject unableToWrite
      | inr _ => mret tt
      end
  else if decide (resourceType = ScaledJobResource) then
    let labels : Labels := Some {[ "namespace" := namespace; "scaledJob" := scaledResource ]} in
    if decide (err ≠ None) then
      c ← CounterVec_.With scaledJobErrors labels; Counter.Inc c
    else
      r ← CounterVec_.GetMetricWith scaledJobErrors labels;
      match r with
      | inl errScaledJob => log_Error errScaledJob unableToWrite
      | inr _ => mret tt
      end
  else mret tt.

(** [RecordScalerError]; [err] is [None] for a nil error. *)
Definition RecordScalerError (namespace scaledResource scaler : string) (scalerIndex : Z)
    (metric : string) (err : option error) (resourceType : string) : M unit :=
  labels ← getLabels namespace scaledResource scaler scalerIndex metric resourceType;
  if decide (resourceType = ScaledObjectResource) then
    if decide (err ≠ None) then
      c ← CounterVec_.With scaledObjectScalerErrors labels; Counter.Inc c;;
      RecordScaledObjectError namespace scaledResource err resourceType;;
      t ← CounterVec_.With scalerErrorsTotal (Some ∅); Counter.Inc t
    else
      r ← CounterVec_.GetMetricWith scaledObjectScalerErrors labels;
      match r with
      | inl errScaler => log_Error errScaler unableToWrite
      | inr _ => mret tt
      end
  else if decide (resourceType = ScaledJobResource) then
    if decide (err ≠ None) then
      c ← CounterVec_.With scaledJobScalerErrors labels; Counter.Inc c;;
      RecordScaledObjectError namespace scaledResource err resourceType;;
      t ← CounterVec_.With scalerErrorsTotal (Some ∅); Counter.Inc t
    else
      r ← CounterVec_.GetMetricWith scaledJobScalerErrors labels;
      match r with
      | inl errScaler => log_Error errScaler unableToWrite
      | inr _ => mret tt
      end
  else mret tt.



(** [IncrementTriggerTotal] *)
Definition IncrementTriggerTotal (triggerType : string) : M unit :=
  if decide (triggerType ≠ "") then
    g ← GaugeVec_.WithLabelValues triggerTotalsGaugeVec [triggerType]; Gauge.Inc g
  else mret tt.

(** [DecrementTriggerTotal] *)
Definition DecrementTriggerTotal (triggerType : string) : M unit :=
  if decide (triggerType ≠ "") then
    g ← GaugeVec_.WithLabelValues triggerTotalsGaugeVec [triggerType]; Gauge.Dec g
  else mret tt.

(** [IncrementCRDTotal] *)
Definition IncrementCRDTotal (crdType namespace : string) : M unit :=
  let namespace := if decide (namespace = "") then "default" else namespace in
  g ← GaugeVec_.WithLabelValues crdTotalsGaugeVec [crdType; namespace]; Gauge.Inc g.

(** [DecrementCRDTotal] *)
Definition DecrementCRDTotal (crdType namespace : string) : M unit :=
  let namespace := if decide (namespace = "") then "default" else namespace in
  g ← GaugeVec_.WithLabelValues crdTotalsGaugeVec [crdType; namespace]; Gauge.Dec g.

(** ** Reading the state and stating the properties *)

(** The data point of a vector at a list of label values. *)
Definition gaugeAt (v : GaugeVec) (vals : list string) : point := (fqName (gaugeVec v), vals).
Definition counterAt (v : CounterVec) (vals : list string) : point := (fqName (counterVec v), vals).

(** [times k m] is [m] called [k] times in a row. *)
Fixpoint times (k : nat) (m : M unit) : M unit :=
  match k with
  | O => mret tt
  | S k' => m;; times k' m
  end.

(** The state after an increment of the counter at [p]. *)
Definition incremented (p : point) (st : State) : State :=
  mkState (gauges st) (<[p := (Counter.value p st + 1)%N]> (counters st)) (logged st).

(** The state after the gauge at [p] was set to [val]. *)
Definition gaugeSet (p : point) (val : float64) (st : State) : State :=
  mkState (<[p := val]> (gauges st)) (counters st) (logged st).

(** The label values are accepted by the client: all are valid UTF-8. *)
Definition validValues (vals : list string) : bool := forallb ValidString vals.

(** The state after a data point of a counter was created at zero. *)
Definition created (p : point) (st : State) : State :=
  mkState (gauges st) (<[p := 0%N]> (counters st)) (logged st).

(** What a get-or-create of the counter at [p] makes of [st]. *)
Definition zeroInitialised (p : point) (st st' : State) : Prop :=
  (counters st !! p = None → st' = created p st) ∧
  (∀ n, counters st !! p = Some n → st' = st).

(** The string of the given bytes. *)
Definition bytes (l : list N) : string := string_of_list_ascii (ascii_of_N <$> l).

(** A label value the client refuses: the single byte 0xFF. *)
Definition notUTF8 : string := String (ascii_of_N 255) "".

(** A call panics when its outcome is [Panic]. *)
Definition panics {A} (m : M A) (st : State) : Prop :=
  ∃ e st', m st = (Panic e, st').

(** The namespace [IncrementCRDTotal] and [DecrementCRDTotal] use. *)
Definition normalised (namespace : string) : string :=
  if decide (namespace = "") then "default" else namespace.




(** The strings of 7-bit characters. *)
Definition ascii_only (s : string) : Prop :=
  Forall (λ c, (N_of_ascii c < 128)%N) (list_ascii_of_string s).

(** The number a string of decimal digits denotes, most significant digit
    first, on top of [acc]. *)
Fixpoint decimal (s : string) (acc : N) : N :=
  match s with
  | EmptyString => acc
  | String c r => decimal r (10 * acc + (N_of_ascii c - 48))
  end.

(** The fifteen vectors the package registers, by fully-qualified name. *)
Definition exported : list string :=
  (((fqName ∘ gaugeVec) <$>
      [buildInfo; scaledObjectScalerMetricsValue; scaledJobScalerMetricsValue;
       scaledObjectScalerMetricsLatency; scaledJobScalerMetricsLatency;
       scaledObjectScalerActive; scaledJobScalerActive;
       triggerTotalsGaugeVec; crdTotalsGaugeVec; internalLoopLatency])
   ++ ((fqName ∘ counterVec) <$>
      [scalerErrorsTotal; scaledObjectScalerErrors; scaledJobScalerErrors;
       scaledObjectErrors; scaledJobErrors]))%list.

(** * Properties *)

(** ** Label values the client accepts *)

Example Itoa_0 : Itoa 0 = "0". Proof. reflexivity. Qed.
Example Itoa_1234567890 : Itoa 1234567890 = "1234567890". Proof. reflexivity. Qed.
Example Itoa_neg : Itoa (-9223372036854775808) = "-9223372036854775808".
Proof. reflexivity. Qed.

Lemma ValidString_ascii_only s : ascii_only s → ValidString s = true.
Proof.
  unfold ascii_only. induction s as [|c s IH]; simpl; [done|].
  intros H. apply Forall_cons in H as [Hc Hs].
  replace (byte_in 0 127 c) with true; [by apply IH|].
  symmetry. unfold byte_in. apply andb_true_iff. split; apply N.leb_le; lia.
Qed.

Lemma digit_ascii n : (N_of_ascii (digit n) < 128)%N.
Proof.
  unfold digit. rewrite N_ascii_embedding.
  - pose proof (N.mod_upper_bound n 10). lia.
  - pose proof (N.mod_upper_bound n 10). lia.
Qed.

Lemma ascii_only_String c s :
  (N_of_ascii c < 128)%N → ascii_only s → ascii_only (String c s).
Proof. intros Hc Hs. unfold ascii_only. cbn [list_ascii_of_string]. by constructor. Qed.

Lemma ascii_only_empty : ascii_only "".
Proof. constructor. Qed.

Lemma digits_ascii_only fuel : ∀ n acc, ascii_only acc → ascii_only (digits fuel n acc).
Proof.
  induction fuel as [|fuel IH]; intros n acc Hacc; cbn [digits]; [done|].
  pose proof (ascii_only_String _ _ (digit_ascii n) Hacc) as H.
  destruct (n / 10 =? 0)%N; [done | by apply IH].
Qed.

Lemma ValidString_Itoa i : ValidString (Itoa i) = true.
Proof.
  apply ValidString_ascii_only. unfold Itoa, FormatUint.
  destruct (i <? 0)%Z.
  - apply ascii_only_String; [by vm_compute|].
    apply digits_ascii_only, ascii_only_empty.
  - apply digits_ascii_only, ascii_only_empty.
Qed.

Lemma append_String s c t : (s ++ String c t = (s ++ String c "") ++ t)%string.
Proof. induction s as [|c' s IH]; [done|]. exact (f_equal (String c') IH). Qed.

Lemma digits_app fuel : ∀ n acc, digits fuel n acc = (digits fuel n "" ++ acc)%string.
Proof.
  induction fuel as [|fuel IH]; intros n acc; cbn [digits]; [done|].
  destruct (n / 10 =? 0)%N; [done|].
  rewrite (IH _ (String _ acc)), (IH _ (String _ "")). apply append_String.
Qed.

Lemma decimal_app s t : ∀ acc, decimal (s ++ t)%string acc = decimal t (decimal s acc).
Proof. induction s as [|c s IH]; intros acc; [done|]. exact (IH _). Qed.

Lemma decimal_digit n acc :
  decimal (String (digit n) "") acc = (10 * acc + n mod 10)%N.
Proof.
  cbn [decimal]. unfold digit.
  assert (n mod 10 < 10)%N as H by (by apply N.mod_upper_bound).
  rewrite N_ascii_embedding by lia. by rewrite (N.add_comm 48), N.add_sub.
Qed.

Lemma decimal_digits fuel : ∀ n, (n < 2 ^ N.of_nat fuel)%N → decimal (digits fuel n "") 0 = n.
Proof.
  induction fuel as [|fuel IH]; intros n Hn.
  - cbn in Hn. cbn [digits decimal]. lia.
  - cbn [digits]. destruct (n / 10 =? 0)%N eqn:E.
    + apply N.eqb_eq in E. rewrite decimal_digit.
      pose proof (N.div_mod n 10). lia.
    + apply N.eqb_neq in E. rewrite digits_app, decimal_app, decimal_digit.
      rewrite IH.
      * pose proof (N.div_mod n 10). lia.
      * rewrite Nat2N.inj_succ, N.pow_succ_r' in Hn.
        apply N.Div0.div_lt_upper_bound. lia.
Qed.

(** [FormatUint] has fuel enough: the digits it writes denote [n]. *)
Lemma decimal_FormatUint n : decimal (FormatUint n) 0 = n.
Proof.
  unfold FormatUint. apply decimal_digits.
  rewrite Nat2N.inj_succ, N2Nat.id.
  destruct (N.eq_dec n 0%N) as [->|Hn]; [done|].
  apply N.log2_spec. lia.
Qed.

Lemma Itoa_decimal i :
  (0 ≤ i → Z.of_N (decimal (Itoa i) 0) = i)%Z ∧
  (i < 0 → ∃ s, Itoa i = String "-" s ∧ - Z.of_N (decimal s 0) = i)%Z.
Proof.
  unfold Itoa. split; intros Hi.
  - rewrite (proj2 (Z.ltb_ge i 0)) by done. rewrite decimal_FormatUint. lia.
  - rewrite (proj2 (Z.ltb_lt i 0)) by done. eexists. split; [done|].
    rewrite decimal_FormatUint. lia.
Qed.

(** [ValidString] on the edges of the encoding. *)
Example ValidString_ascii : ValidString "scaler-a" = true.
Proof. reflexivity. Qed.

Example ValidString_multibyte :
  ValidString (bytes [0xC3; 0xA9; 0xE2; 0x82; 0xAC; 0xF0; 0x9F; 0x98; 0x80]%N) = true.
Proof. reflexivity. Qed.

Example ValidString_refuses :
  ValidString <$> [bytes [0x80]%N; bytes [0xC0; 0x80]%N; bytes [0xC3]%N; bytes [0xE0; 0x9F; 0xBF]%N;
                   bytes [0xED; 0xA0; 0x80]%N; bytes [0xF4; 0x90; 0x80; 0x80]%N; notUTF8]
  = [false; false; false; false; false; false; false].
Proof. reflexivity. Qed.

(** ** The registered vectors *)

(** The series the package exports. *)
Example exported_names :
  exported
  = ["keda_build_info"; "keda_scaler_scaledobject_metrics_value";
     "keda_scaler_scaledjob_metrics_value"; "keda_scaler_scaledobject_metrics_latency";
     "keda_scaler_scaledjob_metrics_latency"; "keda_scaler_scaledobject_active";
     "keda_scaler_scaledjob_active"; "keda_trigger_totals"; "keda_resource_totals";
     "keda_internal_scale_loop_latency"; "keda_scaler_errors_total";
     "keda_scaler_scaledobject_errors"; "keda_scaler_scaledjob_errors";
     "keda_scaled_object_errors"; "keda_scaled_job_errors"].
Proof. reflexivity. Qed.

(** No two vectors share a name, so a name and label values address one
    data point of one vector. *)
Lemma exported_NoDup : NoDup exported.
Proof. apply (bool_decide_unpack _). by vm_compute. Qed.

(** ** Resolution of labels to a data point *)

Lemma validateValuesInLabels_None labels n :
  size (labelMap labels) = n →
  map_Forall (λ _ v, ValidString v = true) (labelMap labels) →
  validateValuesInLabels labels n = None.
Proof.
  intros Hsize Hall. unfold validateValuesInLabels.
  rewrite decide_False by (intros H; by apply H).
  replace (forallb ValidString (snd <$> map_to_list (labelMap labels))) with true; [done|].
  symmetry. apply forallb_forall. intros v Hv.
  apply list_elem_of_In, list_elem_of_fmap in Hv as ([k v'] & -> & Hkv).
  apply elem_of_map_to_list in Hkv. by apply (Hall k v').
Qed.

Lemma validateLabelValues_None vals n :
  length vals = n → Forall (λ v, ValidString v = true) vals →
  validateLabelValues vals n = None.
Proof.
  intros Hlen Hall. unfold validateLabelValues.
  rewrite decide_False by (intros H; by apply H).
  replace (forallb ValidString vals) with true; [done|].
  symmetry. apply forallb_forall. intros v Hv.
  apply list_elem_of_In in Hv. by eapply Forall_forall in Hall.
Qed.

Lemma resolveValues_ok v vals :
  length vals = length (variableLabels v) →
  Forall (λ v, ValidString v = true) vals →
  resolveValues v vals = inr (fqName v, vals).
Proof. intros Hlen Hall. unfold resolveValues. by rewrite validateLabelValues_None. Qed.

(** The label map of [getLabels] resolves, on a vector with the five
    scaler labels, to the values in the order of the variable labels. *)
Lemma resolveLabels_scaler name resource (ns res sc idx met : string) :
  ValidString ns = true → ValidString res = true → ValidString sc = true →
  ValidString idx = true → ValidString met = true →
  resource = "scaledObject" ∨ resource = "scaledJob" →
  resolveLabels (mkVec name ["namespace"; "metric"; resource; "scaler"; "scalerIndex"])
    (Some {[ "namespace" := ns; resource := res; "scaler" := sc;
             "scalerIndex" := idx; "metric" := met ]})
  = inr (name, [ns; met; res; sc; idx]).
Proof.
  intros Hns Hres Hsc Hidx Hmet Hresource. unfold resolveLabels.
  rewrite validateValuesInLabels_None.
  - by destruct Hresource as [-> | ->].
  - by destruct Hresource as [-> | ->].
  - cbn [labelMap default].
    repeat (apply map_Forall_insert_2; [done|]). apply map_Forall_empty.
Qed.

(** Likewise for the two labels of the resource-level error counters. *)
Lemma resolveLabels_resource name resource (ns res : string) :
  ValidString ns = true → ValidString res = true →
  resource = "scaledObject" ∨ resource = "scaledJob" →
  resolveLabels (mkVec name ["namespace"; resource])
    (Some {[ "namespace" := ns; resource := res ]})
  = inr (name, [ns; res]).
Proof.
  intros Hns Hres Hresource. unfold resolveLabels.
  rewrite validateValuesInLabels_None.
  - by destruct Hresource as [-> | ->].
  - by destruct Hresource as [-> | ->].
  - cbn [labelMap default].
    repeat (apply map_Forall_insert_2; [done|]). apply map_Forall_empty.
Qed.

(** The empty label map resolves on a vector without variable labels. *)
Lemma resolveLabels_empty name : resolveLabels (mkVec name []) (Some ∅) = inr (name, []).
Proof. reflexivity. Qed.

(** ** Running the client *)

Lemma run_bind {A B} (m : M A) (f : A → M B) st :
  (m ≫= f) st = match m st with
                | (Done a, st') => f a st'
                | (Panic e, st') => (Panic e, st')
                end.
Proof. reflexivity. Qed.

Lemma CounterVec_GetMetricWith_ok v labels p st :
  resolveLabels (counterVec v) labels = inr p →
  CounterVec_.GetMetricWith v labels st = (Done (inr p), snd (getOrCreateCounter p st)).
Proof. intros H. unfold CounterVec_.GetMetricWith. by rewrite H. Qed.

Lemma CounterVec_GetMetricWith_err v labels e st :
  resolveLabels (counterVec v) labels = inl e →
  CounterVec_.GetMetricWith v labels st = (Done (inl e), st).
Proof. intros H. unfold CounterVec_.GetMetricWith. by rewrite H. Qed.

Lemma CounterVec_With_ok v labels p st :
  resolveLabels (counterVec v) labels = inr p →
  CounterVec_.With v labels st = (Done p, snd (getOrCreateCounter p st)).
Proof.
  intros H. unfold CounterVec_.With.
  by rewrite run_bind, (CounterVec_GetMetricWith_ok _ _ _ _ H).
Qed.

Lemma CounterVec_With_err v labels e st :
  resolveLabels (counterVec v) labels = inl e →
  CounterVec_.With v labels st = (Panic e, st).
Proof.
  intros H. unfold CounterVec_.With.
  by rewrite run_bind, (CounterVec_GetMetricWith_err _ _ _ _ H).
Qed.

Lemma GaugeVec_With_ok v labels p st :
  resolveLabels (gaugeVec v) labels = inr p →
  GaugeVec_.With v labels st = (Done p, snd (getOrCreateGauge p st)).
Proof.
  intros H. unfold GaugeVec_.With, GaugeVec_.GetMetricWith. rewrite run_bind. by rewrite H.
Qed.

Lemma GaugeVec_With_err v labels e st :
  resolveLabels (gaugeVec v) labels = inl e →
  GaugeVec_.With v labels st = (Panic e, st).
Proof.
  intros H. unfold GaugeVec_.With, GaugeVec_.GetMetricWith. rewrite run_bind. by rewrite H.
Qed.

Lemma GaugeVec_WithLabelValues_ok v vals p st :
  resolveValues (gaugeVec v) vals = inr p →
  GaugeVec_.WithLabelValues v vals st = (Done p, snd (getOrCreateGauge p st)).
Proof.
  intros H. unfold GaugeVec_.WithLabelValues, GaugeVec_.GetMetricWithLabelValues.
  rewrite run_bind. by rewrite H.
Qed.

Lemma GaugeVec_WithLabelValues_err v vals e st :
  resolveValues (gaugeVec v) vals = inl e →
  GaugeVec_.WithLabelValues v vals st = (Panic e, st).
Proof.
  intros H. unfold GaugeVec_.WithLabelValues, GaugeVec_.GetMetricWithLabelValues.
  rewrite run_bind. by rewrite H.
Qed.

(** Get-or-create followed by a write is the write alone. *)
Lemma Counter_Inc_created p st :
  Counter.Inc p (snd (getOrCreateCounter p st)) = (Done tt, incremented p st).
Proof.
  unfold Counter.Inc, getOrCreateCounter, incremented, Counter.value. cbn [snd].
  destruct (counters st !! p) as [n|] eqn:E; [by rewrite E|].
  cbn [counters gauges logged]. by rewrite lookup_insert_eq, insert_insert_eq.
Qed.

Lemma Gauge_Set_created p val st :
  Gauge.Set_ p val (snd (getOrCreateGauge p st)) = (Done tt, gaugeSet p val st).
Proof.
  unfold Gauge.Set_, getOrCreateGauge, gaugeSet. cbn [snd].
  destruct (gauges st !! p) as [x|] eqn:E; [done|].
  cbn [counters gauges logged]. by rewrite insert_insert_eq.
Qed.

Lemma Gauge_Add_created p val st :
  Gauge.Add p val (snd (getOrCreateGauge p st))
  = (Done tt, gaugeSet p (Gauge.value p st + val)%float st).
Proof.
  unfold Gauge.Add, getOrCreateGauge, gaugeSet, Gauge.value. cbn [snd].
  destruct (gauges st !! p) as [x|] eqn:E; [by rewrite E|].
  cbn [counters gauges logged]. by rewrite lookup_insert_eq, insert_insert_eq.
Qed.

Lemma With_Inc v labels p st :
  resolveLabels (counterVec v) labels = inr p →
  (CounterVec_.With v labels ≫= Counter.Inc) st = (Done tt, incremented p st).
Proof.
  intros H. rewrite run_bind, (CounterVec_With_ok _ _ _ _ H). apply Counter_Inc_created.
Qed.

Lemma With_Set v labels p val st :
  resolveLabels (gaugeVec v) labels = inr p →
  (GaugeVec_.With v labels ≫= λ g, Gauge.Set_ g val) st = (Done tt, gaugeSet p val st).
Proof.
  intros H. rewrite run_bind, (GaugeVec_With_ok _ _ _ _ H). apply Gauge_Set_created.
Qed.


Lemma WithLabelValues_Add v vals p val st :
  resolveValues (gaugeVec v) vals = inr p →
  (GaugeVec_.WithLabelValues v vals ≫= λ g, Gauge.Add g val) st
  = (Done tt, gaugeSet p (Gauge.value p st + val)%float st).
Proof.
  intros H. rewrite run_bind, (GaugeVec_WithLabelValues_ok _ _ _ _ H). apply Gauge_Add_created.
Qed.

(** Reading after a write. *)
Lemma value_incremented_eq p st :
  Counter.value p (incremented p st) = (Counter.value p st + 1)%N.
Proof. unfold Counter.value at 1, incremented. cbn [counters]. by rewrite lookup_insert_eq. Qed.

Lemma value_incremented_ne p q st :
  p ≠ q → Counter.value q (incremented p st) = Counter.value q st.
Proof.
  intros H. unfold Counter.value, incremented. cbn [counters]. by rewrite lookup_insert_ne.
Qed.

Lemma value_gaugeSet_eq p val st : gauges (gaugeSet p val st) !! p = Some val.
Proof. unfold gaugeSet. cbn [gauges]. by rewrite lookup_insert_eq. Qed.

Lemma value_gaugeSet_ne p q val st : p ≠ q → gauges (gaugeSet p val st) !! q = gauges st !! q.
Proof. intros H. unfold gaugeSet. cbn [gauges]. by rewrite lookup_insert_ne. Qed.

(** ** The recording functions on accepted label values *)

Lemma validValues_cons v vals :
  validValues (v :: vals) = true ↔ ValidString v = true ∧ validValues vals = true.
Proof. unfold validValues. cbn [forallb]. apply andb_true_iff. Qed.


Ltac split_valid H :=
  repeat (apply validValues_cons in H;
          let Hv := fresh "Hvalid" in destruct H as [Hv H]).

(** The three vectors of a resource type that carry the scaler labels, and
    its resource-level error counter. *)
Lemma RecordScaledObjectError_err_object ns res e st :
  validValues [ns; res] = true →
  RecordScaledObjectError ns res (Some e) ScaledObjectResource st
  = (Done tt, incremented (counterAt scaledObjectErrors [ns; res]) st).
Proof.
  intros H. split_valid H. unfold RecordScaledObjectError.
  rewrite decide_True by done. rewrite decide_True by done.
  apply With_Inc. by apply resolveLabels_resource; [..|left].
Qed.

Lemma RecordScaledObjectError_err_job ns res e st :
  validValues [ns; res] = true →
  RecordScaledObjectError ns res (Some e) ScaledJobResource st
  = (Done tt, incremented (counterAt scaledJobErrors [ns; res]) st).
Proof.
  intros H. split_valid H. unfold RecordScaledObjectError.
  rewrite decide_False by done. rewrite decide_True by done. rewrite decide_True by done.
  apply With_Inc. by apply resolveLabels_resource; [..|right].
Qed.

Lemma RecordScalerError_err_object ns res sc idx met e st :
  validValues [ns; res; sc; met] = true →
  RecordScalerError ns res sc idx met (Some e) ScaledObjectResource st
  = (Done tt,
     incremented (counterAt scalerErrorsTotal [])
       (incremented (counterAt scaledObjectErrors [ns; res])
          (incremented (counterAt scaledObjectScalerErrors [ns; met; res; sc; Itoa idx]) st))).
Proof.
  intros H. pose proof H as H'. split_valid H. unfold RecordScalerError, getLabels.
  rewrite decide_True by done. rewrite run_bind. cbv beta iota delta [mret M_ret].
  rewrite decide_True by done. rewrite decide_True by done.
  rewrite run_bind.
  rewrite (CounterVec_With_ok _ _ (counterAt scaledObjectScalerErrors [ns; met; res; sc; Itoa idx]))
    by (apply resolveLabels_scaler; auto using ValidString_Itoa).
  cbv beta iota. rewrite run_bind, Counter_Inc_created. cbv beta iota.
  rewrite run_bind, RecordScaledObjectError_err_object
    by (apply validValues_cons; split; [done|]; apply validValues_cons; by split).
  cbv beta iota. by apply With_Inc.
Qed.

Lemma RecordScalerError_err_job ns res sc idx met e st :
  validValues [ns; res; sc; met] = true →
  RecordScalerError ns res sc idx met (Some e) ScaledJobResource st
  = (Done tt,
     incremented (counterAt scalerErrorsTotal [])
       (incremented (counterAt scaledJobErrors [ns; res])
          (incremented (counterAt scaledJobScalerErrors [ns; met; res; sc; Itoa idx]) st))).
Proof.
  intros H. pose proof H as H'. split_valid H. unfold RecordScalerError, getLabels.
  rewrite decide_False by done. rewrite decide_True by done.
  rewrite run_bind. cbv beta iota delta [mret M_ret].
  rewrite decide_False by done. rewrite decide_True by done. rewrite decide_True by done.
  rewrite run_bind.
  rewrite (CounterVec_With_ok _ _ (counterAt scaledJobScalerErrors [ns; met; res; sc; Itoa idx]))
    by (apply resolveLabels_scaler; auto using ValidString_Itoa).
  cbv beta iota. rewrite run_bind, Counter_Inc_created. cbv beta iota.
  rewrite run_bind, RecordScaledObjectError_err_job
    by (apply validValues_cons; split; [done|]; apply validValues_cons; by split).
  cbv beta iota. by apply With_Inc.
Qed.

(** A call that increments three different counters, made [k] times, adds
    [k] to each of them. *)
Lemma times_incremented (m : M unit) p1 p2 p3 :
  (∀ st, m st = (Done tt, incremented p3 (incremented p2 (incremented p1 st)))) →
  p1 ≠ p2 → p1 ≠ p3 → p2 ≠ p3 →
  ∀ k st, ∃ st',
    times k m st = (Done tt, st') ∧
    Counter.value p1 st' = (Counter.value p1 st + N.of_nat k)%N ∧
    Counter.value p2 st' = (Counter.value p2 st + N.of_nat k)%N ∧
    Counter.value p3 st' = (Counter.value p3 st + N.of_nat k)%N.
Proof.
  intros Hm H12 H13 H23. induction k as [|k IH]; intros st.
  - exists st. cbn [times]. repeat split; lia.
  - destruct (IH (incremented p3 (incremented p2 (incremented p1 st))))
      as (st' & Hrun & Hv1 & Hv2 & Hv3).
    exists st'. cbn [times]. rewrite run_bind, Hm. split; [exact Hrun|].
    rewrite Hv1, Hv2, Hv3.
    rewrite (value_incremented_ne p3 p1), (value_incremented_ne p2 p1) by done.
    rewrite (value_incremented_ne p3 p2) by done.
    rewrite !value_incremented_eq.
    rewrite (value_incremented_ne p2 p3), (value_incremented_ne p1 p3) by done.
    rewrite (value_incremented_ne p1 p2) by done.
    repeat split; lia.
Qed.

(** C1: for label values the client accepts and either known resource
    type, [k] calls of [RecordScalerError] with a non-nil error return and
    add exactly [k] to the per-scaler error counter at the label tuple, to
    the resource-level error counter of that resource type at (namespace,
    resource name), and to the unlabelled [scalerErrorsTotal]. *)
Theorem RecordScalerError_counts ns res sc idx met e k st kind scalerErrors resourceErrors :
  validValues [ns; res; sc; met] = true →
  (kind, scalerErrors, resourceErrors) ∈
    [(ScaledObjectResource, scaledObjectScalerErrors, scaledObjectErrors);
     (ScaledJobResource, scaledJobScalerErrors, scaledJobErrors)] →
  ∃ st',
    times k (RecordScalerError ns res sc idx met (Some e) kind) st = (Done tt, st') ∧
    Counter.value (counterAt scalerErrors [ns; met; res; sc; Itoa idx]) st'
    = (Counter.value (counterAt scalerErrors [ns; met; res; sc; Itoa idx]) st + N.of_nat k)%N ∧
    Counter.value (counterAt resourceErrors [ns; res]) st'
    = (Counter.value (counterAt resourceErrors [ns; res]) st + N.of_nat k)%N ∧
    Counter.value (counterAt scalerErrorsTotal []) st'
    = (Counter.value (counterAt scalerErrorsTotal []) st + N.of_nat k)%N.
Proof.
  intros Hvalid Hkind.
  apply elem_of_cons in Hkind as [Hkind | Hkind].
  - injection Hkind as -> -> ->.
    apply times_incremented; [|done..].
    intros st0. by apply RecordScalerError_err_object.
  - apply list_elem_of_singleton in Hkind. injection Hkind as -> -> ->.
    apply times_incremented; [|done..].
    intros st0. by apply RecordScalerError_err_job.
Qed.

(** The end-to-end scenario: one failure on the fresh state. *)
Lemma RecordScalerError_counts_witness :
  ∃ st',
    times 1 (RecordScalerError "ns1" "obj1" "scaler-a" 0 "queueLength"
               (Some (errCaller "timeout")) ScaledObjectResource) emptyState = (Done tt, st') ∧
    Counter.value (counterAt scaledObjectScalerErrors
                     ["ns1"; "queueLength"; "obj1"; "scaler-a"; Itoa 0]) st'
    = (Counter.value (counterAt scaledObjectScalerErrors
                        ["ns1"; "queueLength"; "obj1"; "scaler-a"; Itoa 0]) emptyState
       + N.of_nat 1)%N ∧
    Counter.value (counterAt scaledObjectErrors ["ns1"; "obj1"]) st'
    = (Counter.value (counterAt scaledObjectErrors ["ns1"; "obj1"]) emptyState + N.of_nat 1)%N ∧
    Counter.value (counterAt scalerErrorsTotal []) st'
    = (Counter.value (counterAt scalerErrorsTotal []) emptyState + N.of_nat 1)%N.
Proof.
  apply (RecordScalerError_counts "ns1" "obj1" "scaler-a" 0 "queueLength"
           (errCaller "timeout") 1 emptyState ScaledObjectResource
           scaledObjectScalerErrors scaledObjectErrors).
  - reflexivity.
  - apply list_elem_of_here.
Defined.

(** ** The zero-initialising read *)

Lemma getOrCreateCounter_zeroInitialised p st :
  zeroInitialised p st (snd (getOrCreateCounter p st)).
Proof.
  unfold zeroInitialised, getOrCreateCounter. cbn [snd].
  split; [intros -> | intros n ->]; done.
Qed.

Lemma GetMetricWith_discard v labels p st :
  resolveLabels (counterVec v) labels = inr p →
  (CounterVec_.GetMetricWith v labels ≫= λ r,
     match r with
     | inl err => log_Error err unableToWrite
     | inr _ => mret tt
     end) st
  = (Done tt, snd (getOrCreateCounter p st)).
Proof. intros H. by rewrite run_bind, (CounterVec_GetMetricWith_ok _ _ _ _ H). Qed.

Lemma RecordScaledObjectError_nil_object ns res st :
  validValues [ns; res] = true →
  RecordScaledObjectError ns res None ScaledObjectResource st
  = (Done tt, snd (getOrCreateCounter (counterAt scaledObjectErrors [ns; res]) st)).
Proof.
  intros H. split_valid H. unfold RecordScaledObjectError.
  rewrite decide_True by done. rewrite decide_False by (intros Hne; by apply Hne).
  apply GetMetricWith_discard. by apply resolveLabels_resource; [..|left].
Qed.

Lemma RecordScaledObjectError_nil_job ns res st :
  validValues [ns; res] = true →
  RecordScaledObjectError ns res None ScaledJobResource st
  = (Done tt, snd (getOrCreateCounter (counterAt scaledJobErrors [ns; res]) st)).
Proof.
  intros H. split_valid H. unfold RecordScaledObjectError.
  rewrite decide_False by done. rewrite decide_True by done.
  rewrite decide_False by (intros Hne; by apply Hne).
  apply GetMetricWith_discard. by apply resolveLabels_resource; [..|right].
Qed.

Lemma RecordScalerError_nil_object ns res sc idx met st :
  validValues [ns; res; sc; met] = true →
  RecordScalerError ns res sc idx met None ScaledObjectResource st
  = (Done tt,
     snd (getOrCreateCounter
            (counterAt scaledObjectScalerErrors [ns; met; res; sc; Itoa idx]) st)).
Proof.
  intros H. split_valid H. unfold RecordScalerError, getLabels.
  rewrite decide_True by done. rewrite run_bind. cbv beta iota delta [mret M_ret].
  rewrite decide_True by done. rewrite decide_False by (intros Hne; by apply Hne).
  apply GetMetricWith_discard. apply resolveLabels_scaler; auto using ValidString_Itoa.
Qed.

Lemma RecordScalerError_nil_job ns res sc idx met st :
  validValues [ns; res; sc; met] = true →
  RecordScalerError ns res sc idx met None ScaledJobResource st
  = (Done tt,
     snd (getOrCreateCounter
            (counterAt scaledJobScalerErrors [ns; met; res; sc; Itoa idx]) st)).
Proof.
  intros H. split_valid H. unfold RecordScalerError, getLabels.
  rewrite decide_False by done. rewrite decide_True by done.
  rewrite run_bind. cbv beta iota delta [mret M_ret].
  rewrite decide_False by done. rewrite decide_True by done.
  rewrite decide_False by (intros Hne; by apply Hne).
  apply GetMetricWith_discard. apply resolveLabels_scaler; auto using ValidString_Itoa.
Qed.

(** C2: for label values the client accepts and either known resource
    type, [RecordScalerError] with a nil error returns after a
    zero-initialising read of the per-scaler error counter: where the
    tuple has no data point, one is created at 0 and nothing else changes;
    where it has one, at any count, the state is unchanged.
    [RecordScaledObjectError] with a nil error does the same on the
    resource-level counter at (namespace, resource name). *)
Theorem nil_error_zero_initialises ns res sc idx met st kind scalerErrors resourceErrors :
  validValues [ns; res; sc; met] = true →
  (kind, scalerErrors, resourceErrors) ∈
    [(ScaledObjectResource, scaledObjectScalerErrors, scaledObjectErrors);
     (ScaledJobResource, scaledJobScalerErrors, scaledJobErrors)] →
  (∃ st',
     RecordScalerError ns res sc idx met None kind st = (Done tt, st') ∧
     zeroInitialised (counterAt scalerErrors [ns; met; res; sc; Itoa idx]) st st') ∧
  (∃ st',
     RecordScaledObjectError ns res None kind st = (Done tt, st') ∧
     zeroInitialised (counterAt resourceErrors [ns; res]) st st').
Proof.
  intros Hvalid Hkind.
  assert (validValues [ns; res] = true) as Hvalid2.
  { pose proof Hvalid as H. split_valid H.
    apply validValues_cons; split; [done|]. apply validValues_cons; by split. }
  apply elem_of_cons in Hkind as [Hkind | Hkind].
  - injection Hkind as -> -> ->. split.
    + eexists. split; [by apply RecordScalerError_nil_object|].
      apply getOrCreateCounter_zeroInitialised.
    + eexists. split; [by apply RecordScaledObjectError_nil_object|].
      apply getOrCreateCounter_zeroInitialised.
  - apply list_elem_of_singleton in Hkind. injection Hkind as -> -> ->. split.
    + eexists. split; [by apply RecordScalerError_nil_job|].
      apply getOrCreateCounter_zeroInitialised.
    + eexists. split; [by apply RecordScaledObjectError_nil_job|].
      apply getOrCreateCounter_zeroInitialised.
Qed.

(** A success reported for a scaler of a ScaledJob that was never seen. *)
Lemma nil_error_zero_initialises_witness :
  (∃ st',
     RecordScalerError "ns1" "job1" "scaler-a" 2 "queueLength" None ScaledJobResource emptyState
     = (Done tt, st') ∧
     zeroInitialised
       (counterAt scaledJobScalerErrors ["ns1"; "queueLength"; "job1"; "scaler-a"; Itoa 2])
       emptyState st') ∧
  (∃ st',
     RecordScaledObjectError "ns1" "job1" None ScaledJobResource emptyState = (Done tt, st') ∧
     zeroInitialised (counterAt scaledJobErrors ["ns1"; "job1"]) emptyState st').
Proof.
  apply (nil_error_zero_initialises "ns1" "job1" "scaler-a" 2 "queueLength" emptyState
           ScaledJobResource scaledJobScalerErrors scaledJobErrors).
  - reflexivity.
  - apply list_elem_of_further, list_elem_of_here.
Defined.

(** The two sides of the read on concrete states: a fresh tuple reads 0
    afterwards, a tuple at 3 still reads 3. *)
Example nil_error_on_fresh_tuple :
  counters (snd (RecordScalerError "ns1" "obj1" "scaler-a" 0 "queueLength" None
                   ScaledObjectResource emptyState))
  !! counterAt scaledObjectScalerErrors ["ns1"; "queueLength"; "obj1"; "scaler-a"; "0"]
  = Some 0%N.
Proof. by vm_compute. Qed.

Example nil_error_on_counted_tuple :
  let p := counterAt scaledObjectScalerErrors ["ns1"; "queueLength"; "obj1"; "scaler-a"; "0"] in
  let st := mkState ∅ {[ p := 3%N ]} [] in
  RecordScalerError "ns1" "obj1" "scaler-a" 0 "queueLength" None ScaledObjectResource st
  = (Done tt, st).
Proof. by vm_compute. Qed.

(** ** The scaler gauges *)

Ltac route :=
  repeat first [ rewrite decide_True by done | rewrite decide_False by done ].

(** Runs a function of the shape [labels ← getLabels ..; switch ..] whose
    case is [With] followed by [Set]. *)
Ltac run_scaler_set H :=
  split_valid H; unfold getLabels; route;
  rewrite run_bind; cbv beta iota delta [mret M_ret]; route;
  apply With_Set; apply resolveLabels_scaler; auto using ValidString_Itoa.

Lemma RecordScalerMetric_object ns res sc idx met val st :
  validValues [ns; res; sc; met] = true →
  RecordScalerMetric ns res sc idx met val ScaledObjectResource st
  = (Done tt,
     gaugeSet (gaugeAt scaledObjectScalerMetricsValue [ns; met; res; sc; Itoa idx]) val st).
Proof. intros H. unfold RecordScalerMetric. run_scaler_set H. Qed.

Lemma RecordScalerMetric_job ns res sc idx met val st :
  validValues [ns; res; sc; met] = true →
  RecordScalerMetric ns res sc idx met val ScaledJobResource st
  = (Done tt,
     gaugeSet (gaugeAt scaledJobScalerMetricsValue [ns; met; res; sc; Itoa idx]) val st).
Proof. intros H. unfold RecordScalerMetric. run_scaler_set H. Qed.



Lemma RecordScalerActive_object ns res sc idx met (active : bool) st :
  validValues [ns; res; sc; met] = true →
  RecordScalerActive ns res sc idx met active ScaledObjectResource st
  = (Done tt,
     gaugeSet (gaugeAt scaledObjectScalerActive [ns; met; res; sc; Itoa idx])
       (if active then 1%float else 0%float) st).
Proof. intros H. unfold RecordScalerActive. destruct active; run_scaler_set H. Qed.

Lemma RecordScalerActive_job ns res sc idx met (active : bool) st :
  validValues [ns; res; sc; met] = true →
  RecordScalerActive ns res sc idx met active ScaledJobResource st
  = (Done tt,
     gaugeSet (gaugeAt scaledJobScalerActive [ns; met; res; sc; Itoa idx])
       (if active then 1%float else 0%float) st).
Proof. intros H. unfold RecordScalerActive. destruct active; run_scaler_set H. Qed.

(** C3, as stated, fails: [RecordScalerMetric] does not set the gauge for
    every input.  With a namespace that is not valid UTF-8, [With] panics
    and no data point is written. *)
Lemma RecordScalerMetric_refused :
  RecordScalerMetric notUTF8 "obj1" "scaler-a" 0 "queueLength" 42%float
    ScaledObjectResource emptyState
  = (Panic errInvalidUTF8, emptyState).
Proof. by vm_compute. Qed.

(** C3, amended: for label values the client accepts and either known
    resource type, [RecordScalerMetric] returns, having written that one
    data point and nothing else, and the metrics-value gauge of that
    resource type at {namespace, metric, scaledObject|scaledJob, scaler,
    scalerIndex} then reads exactly the supplied value, whatever it read
    before (last write wins). *)
Theorem RecordScalerMetric_sets ns res sc idx met val st kind metricsValue :
  validValues [ns; res; sc; met] = true →
  (kind, metricsValue) ∈ [(ScaledObjectResource, scaledObjectScalerMetricsValue);
                         (ScaledJobResource, scaledJobScalerMetricsValue)] →
  ∃ st',
    RecordScalerMetric ns res sc idx met val kind st = (Done tt, st') ∧
    st' = gaugeSet (gaugeAt metricsValue [ns; met; res; sc; Itoa idx]) val st ∧
    gauges st' !! gaugeAt metricsValue [ns; met; res; sc; Itoa idx] = Some val.
Proof.
  intros Hvalid Hkind.
  apply elem_of_cons in Hkind as [Hkind | Hkind].
  - injection Hkind as -> ->. eexists. split; [by apply RecordScalerMetric_object|].
    split; [done | apply value_gaugeSet_eq].
  - apply list_elem_of_singleton in Hkind. injection Hkind as -> ->.
    eexists. split; [by apply RecordScalerMetric_job|].
    split; [done | apply value_gaugeSet_eq].
Qed.

(** The scenario of the specification: on the fresh state the series at
    {namespace=ns1, metric=queueLength, scaledObject=obj1, scaler=scaler-a,
    scalerIndex=0} reads 42.0. *)
Lemma RecordScalerMetric_sets_witness :
  ∃ st',
    RecordScalerMetric "ns1" "obj1" "scaler-a" 0 "queueLength" 42%float
      ScaledObjectResource emptyState = (Done tt, st') ∧
    st' = gaugeSet (gaugeAt scaledObjectScalerMetricsValue
                      ["ns1"; "queueLength"; "obj1"; "scaler-a"; Itoa 0]) 42%float emptyState ∧
    gauges st' !! gaugeAt scaledObjectScalerMetricsValue
                    ["ns1"; "queueLength"; "obj1"; "scaler-a"; Itoa 0]
    = Some 42%float.
Proof.
  apply (RecordScalerMetric_sets "ns1" "obj1" "scaler-a" 0 "queueLength" 42%float emptyState
           ScaledObjectResource scaledObjectScalerMetricsValue).
  - reflexivity.
  - apply list_elem_of_here.
Defined.

(** C8: for label values the client accepts and either known resource
    type, [RecordScalerActive] returns and the activity gauge of that
    resource type at the label tuple then reads exactly 1.0 for
    [active = true] and exactly 0.0 for [active = false], whatever it read
    before. *)
Theorem RecordScalerActive_sets ns res sc idx met (active : bool) st kind scalerActive :
  validValues [ns; res; sc; met] = true →
  (kind, scalerActive) ∈ [(ScaledObjectResource, scaledObjectScalerActive);
                         (ScaledJobResource, scaledJobScalerActive)] →
  ∃ st',
    RecordScalerActive ns res sc idx met active kind st = (Done tt, st') ∧
    gauges st' !! gaugeAt scalerActive [ns; met; res; sc; Itoa idx]
    = Some (if active then 1%float else 0%float).
Proof.
  intros Hvalid Hkind.
  apply elem_of_cons in Hkind as [Hkind | Hkind].
  - injection Hkind as -> ->. eexists. split; [by apply RecordScalerActive_object|].
    apply value_gaugeSet_eq.
  - apply list_elem_of_singleton in Hkind. injection Hkind as -> ->.
    eexists. split; [by apply RecordScalerActive_job|]. apply value_gaugeSet_eq.
Qed.

(** A scaler that was active goes inactive: the gauge at 1.0 reads 0.0. *)
Lemma RecordScalerActive_sets_witness :
  ∃ st',
    RecordScalerActive "ns1" "obj1" "scaler-a" 0 "queueLength" false ScaledObjectResource
      (mkState {[ gaugeAt scaledObjectScalerActive
                    ["ns1"; "queueLength"; "obj1"; "scaler-a"; "0"] := 1%float ]} ∅ [])
    = (Done tt, st') ∧
    gauges st' !! gaugeAt scaledObjectScalerActive
                    ["ns1"; "queueLength"; "obj1"; "scaler-a"; Itoa 0]
    = Some 0%float.
Proof.
  apply (RecordScalerActive_sets "ns1" "obj1" "scaler-a" 0 "queueLength" false _
           ScaledObjectResource scaledObjectScalerActive).
  - reflexivity.
  - apply list_elem_of_here.
Defined.

(** ** Resource types other than the two known ones *)

Lemma getLabels_unknown ns res sc idx met kind st :
  kind ≠ ScaledObjectResource → kind ≠ ScaledJobResource →
  getLabels ns res sc idx met kind st = (Done None, st).
Proof. intros H1 H2. unfold getLabels. by rewrite !decide_False by done. Qed.

Lemma routing_unknown ns res sc idx met val (active : bool) err kind st :
  kind ≠ ScaledObjectResource → kind ≠ ScaledJobResource →
  RecordScalerMetric ns res sc idx met val kind st = (Done tt, st) ∧
  RecordScalerLatency ns res sc idx met val kind st = (Done tt, st) ∧
  RecordScalerActive ns res sc idx met active kind st = (Done tt, st) ∧
  RecordScalerError ns res sc idx met err kind st = (Done tt, st) ∧
  RecordScaledObjectError ns res err kind st = (Done tt, st).
Proof.
  intros H1 H2.
  unfold RecordScalerMetric, RecordScalerLatency, RecordScalerActive, RecordScalerError,
    RecordScaledObjectError.
  rewrite !run_bind, !getLabels_unknown by done.
  by rewrite !decide_False by done.
Qed.

(** C4: for a resource type that is neither "scaled_object" nor
    "scaled_job", each routing function ([RecordScalerMetric],
    [RecordScalerLatency], [RecordScalerActive], [RecordScalerError],
    [RecordScaledObjectError]) returns and leaves the whole state as it
    was, for every other argument; with a nil error too, so nothing is
    looked up and nothing is logged. *)
Theorem unknown_kind_noop ns res sc idx met val (active : bool) err kind st :
  kind ≠ ScaledObjectResource → kind ≠ ScaledJobResource →
  RecordScalerMetric ns res sc idx met val kind st = (Done tt, st) ∧
  RecordScalerLatency ns res sc idx met val kind st = (Done tt, st) ∧
  RecordScalerActive ns res sc idx met active kind st = (Done tt, st) ∧
  RecordScalerError ns res sc idx met err kind st = (Done tt, st) ∧
  RecordScalerError ns res sc idx met None kind st = (Done tt, st) ∧
  RecordScaledObjectError ns res err kind st = (Done tt, st) ∧
  RecordScaledObjectError ns res None kind st = (Done tt, st).
Proof.
  intros H1 H2.
  destruct (routing_unknown ns res sc idx met val active err kind st H1 H2)
    as (Hm & Hl & Ha & He & Ho).
  destruct (routing_unknown ns res sc idx met val active None kind st H1 H2)
    as (_ & _ & _ & He' & Ho').
  done.
Qed.

(** A caller that passes the resource type of a TriggerAuthentication. *)
Lemma unknown_kind_noop_witness :
  let st := mkState ∅ {[ counterAt scalerErrorsTotal [] := 7%N ]} [] in
  RecordScalerMetric notUTF8 "obj1" "scaler-a" 0 "queueLength" 42%float
    TriggerAuthenticationResource st = (Done tt, st) ∧
  RecordScalerLatency notUTF8 "obj1" "scaler-a" 0 "queueLength" 42%float
    TriggerAuthenticationResource st = (Done tt, st) ∧
  RecordScalerActive notUTF8 "obj1" "scaler-a" 0 "queueLength" true
    TriggerAuthenticationResource st = (Done tt, st) ∧
  RecordScalerError notUTF8 "obj1" "scaler-a" 0 "queueLength" (Some (errCaller "timeout"))
    TriggerAuthenticationResource st = (Done tt, st) ∧
  RecordScalerError notUTF8 "obj1" "scaler-a" 0 "queueLength" None
    TriggerAuthenticationResource st = (Done tt, st) ∧
  RecordScaledObjectError notUTF8 "obj1" (Some (errCaller "timeout"))
    TriggerAuthenticationResource st = (Done tt, st) ∧
  RecordScaledObjectError notUTF8 "obj1" None TriggerAuthenticationResource st = (Done tt, st).
Proof.
  intros st.
  apply (unknown_kind_noop notUTF8 "obj1" "scaler-a" 0 "queueLength" 42%float true
           (Some (errCaller "timeout")) TriggerAuthenticationResource st); discriminate.
Defined.

(** C5, as stated, fails: [getLabels] does not panic for an unrecognized
    resource type; it returns the nil map. *)
Lemma getLabels_unknown_returns :
  getLabels "ns1" "obj1" "scaler-a" 0 "queueLength" ClusterTriggerAuthenticationResource
    emptyState = (Done None, emptyState) ∧
  ¬ panics (getLabels "ns1" "obj1" "scaler-a" 0 "queueLength"
              ClusterTriggerAuthenticationResource) emptyState.
Proof.
  split; [reflexivity|]. intros (e & st' & H). discriminate H.
Qed.

(** C5, amended: for an unrecognized resource type [getLabels] returns the
    nil label map, neither a panic nor an explicit error, and the routing
    functions return without changing the state. *)
Theorem getLabels_unknown_nil ns res sc idx met val (active : bool) err kind st :
  kind ≠ ScaledObjectResource → kind ≠ ScaledJobResource →
  getLabels ns res sc idx met kind st = (Done None, st) ∧
  RecordScalerMetric ns res sc idx met val kind st = (Done tt, st) ∧
  RecordScalerLatency ns res sc idx met val kind st = (Done tt, st) ∧
  RecordScalerActive ns res sc idx met active kind st = (Done tt, st) ∧
  RecordScalerError ns res sc idx met err kind st = (Done tt, st) ∧
  RecordScaledObjectError ns res err kind st = (Done tt, st).
Proof.
  intros H1 H2. split; [by apply getLabels_unknown | by apply routing_unknown].
Qed.

Lemma getLabels_unknown_nil_witness :
  getLabels "ns1" "obj1" "scaler-a" 0 "queueLength" "deployment" emptyState
  = (Done None, emptyState) ∧
  RecordScalerMetric "ns1" "obj1" "scaler-a" 0 "queueLength" 42%float "deployment" emptyState
  = (Done tt, emptyState) ∧
  RecordScalerLatency "ns1" "obj1" "scaler-a" 0 "queueLength" 42%float "deployment" emptyState
  = (Done tt, emptyState) ∧
  RecordScalerActive "ns1" "obj1" "scaler-a" 0 "queueLength" true "deployment" emptyState
  = (Done tt, emptyState) ∧
  RecordScalerError "ns1" "obj1" "scaler-a" 0 "queueLength" None "deployment" emptyState
  = (Done tt, emptyState) ∧
  RecordScaledObjectError "ns1" "obj1" None "deployment" emptyState = (Done tt, emptyState).
Proof.
  apply (getLabels_unknown_nil "ns1" "obj1" "scaler-a" 0 "queueLength" 42%float true None
           "deployment" emptyState); discriminate.
Defined.

(** ** The totals gauges *)

(** C6: for every type and every state, [IncrementCRDTotal] with the empty
    namespace does what it does with the namespace "default", outcome and
    state alike, and so does [DecrementCRDTotal]: both address the gauge
    at the label values (type, "default"). *)
Theorem CRDTotal_empty_namespace crdType st :
  IncrementCRDTotal crdType "" st = IncrementCRDTotal crdType "default" st ∧
  DecrementCRDTotal crdType "" st = DecrementCRDTotal crdType "default" st ∧
  IncrementCRDTotal crdType "" st
  = (GaugeVec_.WithLabelValues crdTotalsGaugeVec [crdType; "default"] ≫= Gauge.Inc) st ∧
  DecrementCRDTotal crdType "" st
  = (GaugeVec_.WithLabelValues crdTotalsGaugeVec [crdType; "default"] ≫= Gauge.Dec) st.
Proof.
  unfold IncrementCRDTotal, DecrementCRDTotal.
  rewrite !(decide_True (P := "" = "")) by done.
  rewrite !(decide_False (P := "default" = "")) by done.
  done.
Qed.

Example IncrementCRDTotal_Foo :
  map_to_list (gauges (snd (IncrementCRDTotal "Foo" "" emptyState)))
  = [(("keda_resource_totals", ["Foo"; "default"]), 1%float)].
Proof. by vm_compute. Qed.

(** C7: for every state, [IncrementTriggerTotal] and
    [DecrementTriggerTotal] with the empty trigger type return and leave
    the state as it was: no data point is created or changed. *)
Theorem TriggerTotal_empty_noop st :
  IncrementTriggerTotal "" st = (Done tt, st) ∧
  DecrementTriggerTotal "" st = (Done tt, st).
Proof.
  unfold IncrementTriggerTotal, DecrementTriggerTotal.
  rewrite !(decide_False (P := "" ≠ "")) by (intros H; by apply H).
  done.
Qed.


Lemma DecrementTriggerTotal_run triggerType st :
  triggerType ≠ "" → ValidString triggerType = true →
  DecrementTriggerTotal triggerType st
  = (Done tt,
     let p := gaugeAt triggerTotalsGaugeVec [triggerType] in
     gaugeSet p (Gauge.value p st + -1)%float st).
Proof.
  intros Hne Hvalid. unfold DecrementTriggerTotal. rewrite decide_True by done.
  apply WithLabelValues_Add, resolveValues_ok; [done | by repeat constructor].
Qed.

Lemma ValidString_normalised namespace :
  ValidString namespace = true → ValidString (normalised namespace) = true.
Proof. intros H. unfold normalised. by case_decide. Qed.


Lemma DecrementCRDTotal_run crdType namespace st :
  validValues [crdType; namespace] = true →
  DecrementCRDTotal crdType namespace st
  = (Done tt,
     let p := gaugeAt crdTotalsGaugeVec [crdType; normalised namespace] in
     gaugeSet p (Gauge.value p st + -1)%float st).
Proof.
  intros H. split_valid H. unfold DecrementCRDTotal. fold (normalised namespace).
  apply WithLabelValues_Add, resolveValues_ok; [done|].
  repeat constructor; auto using ValidString_normalised.
Qed.



Lemma Gauge_value_fresh p st : gauges st !! p = None → Gauge.value p st = 0%float.
Proof. intros H. unfold Gauge.value. by rewrite H. Qed.

(** C10, as stated, fails: a non-empty trigger type that is not valid
    UTF-8 has no data point, and [DecrementTriggerTotal] panics on it
    without creating one. *)
Lemma DecrementTriggerTotal_refused :
  notUTF8 ≠ "" ∧
  gauges emptyState !! gaugeAt triggerTotalsGaugeVec [notUTF8] = None ∧
  DecrementTriggerTotal notUTF8 emptyState = (Panic errInvalidUTF8, emptyState).
Proof. by vm_compute. Qed.

(** C10, amended: for every non-empty trigger type the client accepts and
    with no data point yet, [DecrementTriggerTotal] returns, having
    created the trigger-totals data point at -1; for every type and
    namespace the client accepts, [DecrementCRDTotal] on a (type,
    namespace) with no data point yet (the namespace "default" for the
    empty one) returns, having created the resource-totals data point at
    -1.  The gauges are not clamped at zero. *)
Theorem decrement_before_increment triggerType crdType namespace st :
  triggerType ≠ "" →
  validValues [triggerType; crdType; namespace] = true →
  (gauges st !! gaugeAt triggerTotalsGaugeVec [triggerType] = None →
   ∃ st',
     DecrementTriggerTotal triggerType st = (Done tt, st') ∧
     gauges st' !! gaugeAt triggerTotalsGaugeVec [triggerType] = Some (-1)%float) ∧
  (gauges st !! gaugeAt crdTotalsGaugeVec [crdType; normalised namespace] = None →
   ∃ st',
     DecrementCRDTotal crdType namespace st = (Done tt, st') ∧
     gauges st' !! gaugeAt crdTotalsGaugeVec [crdType; normalised namespace]
     = Some (-1)%float).
Proof.
  intros Hne H. apply validValues_cons in H as [Htrigger Hcrd]. split; intros Hfresh.
  - eexists. split; [by apply DecrementTriggerTotal_run|].
    cbv zeta. by rewrite value_gaugeSet_eq, Gauge_value_fresh.
  - eexists. split; [by apply DecrementCRDTotal_run|].
    cbv zeta. by rewrite value_gaugeSet_eq, Gauge_value_fresh.
Qed.

(** Removing a trigger and a resource before any was added. *)
Lemma decrement_before_increment_witness :
  (∃ st',
     DecrementTriggerTotal "kafka" emptyState = (Done tt, st') ∧
     gauges st' !! gaugeAt triggerTotalsGaugeVec ["kafka"] = Some (-1)%float) ∧
  (∃ st',
     DecrementCRDTotal "scaled_object" "" emptyState = (Done tt, st') ∧
     gauges st' !! gaugeAt crdTotalsGaugeVec ["scaled_object"; "default"] = Some (-1)%float).
Proof.
  destruct (decrement_before_increment "kafka" "scaled_object" "" emptyState)
    as [Htrigger Hcrd]; [discriminate | reflexivity |].
  split; [apply Htrigger | apply Hcrd]; reflexivity.
Defined.

(** ** Rejections by the client *)


















Example rejection_is_logged :
  RecordScalerError notUTF8 "obj1" "scaler-a" 0 "queueLength" None ScaledObjectResource
    emptyState
  = (Done tt, mkState ∅ ∅ [(errInvalidUTF8, unableToWrite)]).
Proof. by vm_compute. Qed.

(** ** The scenario of the specification, end to end *)

Example scenario :
  let st := snd (RecordScalerError "ns1" "obj1" "scaler-a" 0 "queueLength"
                   (Some (errCaller "timeout")) ScaledObjectResource
                   (snd (RecordScalerMetric "ns1" "obj1" "scaler-a" 0 "queueLength" 42%float
                           ScaledObjectResource emptyState))) in
  map_to_list (gauges st)
  = [(("keda_scaler_scaledobject_metrics_value",
       ["ns1"; "queueLength"; "obj1"; "scaler-a"; "0"]), 42%float)] ∧
  counters st !! ("keda_scaler_scaledobject_errors",
                  ["ns1"; "queueLength"; "obj1"; "scaler-a"; "0"]) = Some 1%N ∧
  counters st !! ("keda_scaled_object_errors", ["ns1"; "obj1"]) = Some 1%N ∧
  counters st !! ("keda_scaler_errors_total", []) = Some 1%N ∧
  size (counters st) = 3 ∧
  logged st = [].
Proof. by vm_compute. Qed.

(** The last write wins. *)
Example last_write_wins :
  gauges (snd (RecordScalerMetric "ns1" "job1" "scaler-a" 1 "lag" 7%float ScaledJobResource
                 (snd (RecordScalerMetric "ns1" "job1" "scaler-a" 1 "lag" 42%float
                         ScaledJobResource emptyState))))
  !! ("keda_scaler_scaledjob_metrics_value", ["ns1"; "lag"; "job1"; "scaler-a"; "1"])
  = Some 7%float.
Proof. by vm_compute. Qed.
